(** * deepl-for-slack: a shallow embedding of [src/index.ts]

    The program is a Slack app with two handlers:
    - [reaction_added]: maps the reaction name to a DeepL target language
      through the object literal [flagToLangCode] and posts the translation
      of the reacted-to message as a threaded reply;
    - [view('deepl-modal')]: translates the text of a modal submission and
      sends the result to the submitting user.
    Both use [runDeepL], one POST to the DeepL API through axios.

    Strings are modelled as Rocq [string]s (8-bit characters).  Every key
    of [flagToLangCode] and the ignore pattern [/QP/i] are plain ASCII, so
    nothing the claims talk about depends on the wider character set of a
    JS string. *)

From Stdlib Require Import String Ascii List Bool ZArith Lia.
Import ListNotations.
Open Scope string_scope.

(* ------------------------------------------------------------------ *)
(** ** Character and string helpers *)

(** A one-character string, for the characters a Rocq string literal
    cannot hold (newline, double quote). *)
Definition chr (n : nat) : string := String (ascii_of_nat n) EmptyString.

Definition nl : string := chr 10.
Definition dq : string := chr 34.

(** JS truthiness of a string: only the empty string is falsy. *)
Definition truthy (s : string) : bool := negb (String.eqb s "").

(** JS truthiness of a value of type [string | null | undefined]. *)
Definition truthy_opt (s : option string) : bool :=
  match s with Some s => truthy s | None => false end.

(** Case folding of the regular expression flag [i] restricted to the
    two letters of the pattern: [Canonicalize] maps both cases of [q]
    (resp. [p]) to the same character, and no other character of the
    8-bit range to it. *)
Definition isQ (c : ascii) : bool :=
  Ascii.eqb c "Q"%char || Ascii.eqb c "q"%char.
Definition isP (c : ascii) : bool :=
  Ascii.eqb c "P"%char || Ascii.eqb c "p"%char.

(** [reactionName.match(/QP/i)] is non-null: some position of the string
    starts an occurrence of [QP] up to case. *)
Fixpoint matchQP (s : string) : bool :=
  match s with
  | String c1 ((String c2 _) as rest) => (isQ c1 && isP c2) || matchQP rest
  | _ => false
  end.

(* ------------------------------------------------------------------ *)
(** ** The object literal [flagToLangCode] (lines 79-186) *)

(** The literal, in source order.  Its keys are pairwise distinct
    ([flagToLangCode_keys_NoDup] below), so the first match of
    [own_lookup] is the own property of the object. *)
Definition flagToLangCode : list (string * string) := [
  (* English *)
  ("flag-us", "EN-US"); ("us", "EN-US");
  ("flag-gb", "EN-GB"); ("gb", "EN-GB");
  ("flag-au", "EN-GB");
  ("flag-ca", "EN-US");
  (* Japanese *)
  ("flag-jp", "JA"); ("jp", "JA");
  (* Chinese (simplified) *)
  ("flag-cn", "ZH-HANS"); ("cn", "ZH-HANS");
  (* Chinese (traditional) *)
  ("flag-tw", "ZH-HANT"); ("tw", "ZH-HANT");
  ("flag-hk", "ZH-HANT"); ("hk", "ZH-HANT");
  (* Korean *)
  ("flag-kr", "KO"); ("kr", "KO");
  (* German *)
  ("flag-de", "DE"); ("de", "DE");
  ("flag-at", "DE");
  ("flag-ch", "DE");
  (* French *)
  ("flag-fr", "FR"); ("fr", "FR");
  (* Spanish *)
  ("flag-es", "ES"); ("es", "ES");
  ("flag-mx", "ES");
  (* Portuguese *)
  ("flag-pt", "PT-PT"); ("pt", "PT-PT");
  ("flag-br", "PT-BR"); ("br", "PT-BR");
  (* Italian *)
  ("flag-it", "IT"); ("it", "IT");
  (* Dutch *)
  ("flag-nl", "NL"); ("nl", "NL");
  (* Polish *)
  ("flag-pl", "PL"); ("pl", "PL");
  (* Russian *)
  ("flag-ru", "RU"); ("ru", "RU");
  (* Turkish *)
  ("flag-tr", "TR"); ("tr", "TR");
  (* Indonesian *)
  ("flag-id", "ID"); ("id", "ID");
  (* Ukrainian *)
  ("flag-ua", "UK"); ("ua", "UK");
  (* Swedish *)
  ("flag-se", "SV"); ("se", "SV");
  (* Danish *)
  ("flag-dk", "DA"); ("dk", "DA");
  (* Finnish *)
  ("flag-fi", "FI"); ("fi", "FI");
  (* Norwegian *)
  ("flag-no", "NB"); ("no", "NB");
  (* Czech *)
  ("flag-cz", "CS"); ("cz", "CS");
  (* Greek *)
  ("flag-gr", "EL"); ("gr", "EL");
  (* Hungarian *)
  ("flag-hu", "HU"); ("hu", "HU");
  (* Romanian *)
  ("flag-ro", "RO"); ("ro", "RO");
  (* Bulgarian *)
  ("flag-bg", "BG"); ("bg", "BG");
  (* Slovak *)
  ("flag-sk", "SK"); ("sk", "SK");
  (* Slovenian *)
  ("flag-si", "SL"); ("si", "SL");
  (* Estonian *)
  ("flag-ee", "ET"); ("ee", "ET");
  (* Latvian *)
  ("flag-lv", "LV"); ("lv", "LV");
  (* Lithuanian *)
  ("flag-lt", "LT"); ("lt", "LT");
  (* Arabic *)
  ("flag-sa", "AR"); ("sa", "AR");
  ("flag-ae", "AR"); ("ae", "AR")
].

(** The JS values a property read of [flagToLangCode] can give: a string
    (an own entry), one of the functions inherited from
    [Object.prototype] (named by its key), [Object.prototype] itself
    (what the [__proto__] accessor returns), or [undefined]. *)
Inductive JsValue : Type :=
| JsString (s : string)
| JsFunction (name : string)
| JsObjectPrototype
| JsUndefined.

(** A string is a JS value. *)
Coercion JsString : string >-> JsValue.

(** JS truthiness: a function and an object are truthy, [undefined] is
    falsy, a string as [truthy]. *)
Definition truthy_value (v : JsValue) : bool :=
  match v with
  | JsString s => truthy s
  | JsFunction _ | JsObjectPrototype => true
  | JsUndefined => false
  end.

(** The properties every object literal inherits from [Object.prototype]
    (ECMAScript 2023, 20.1.3 and B.2.2): [__proto__] is an accessor
    returning [Object.prototype], the others are functions. *)
Definition object_prototype_members : list string :=
  ["constructor"; "__proto__"; "hasOwnProperty"; "isPrototypeOf";
   "propertyIsEnumerable"; "toString"; "valueOf"; "toLocaleString";
   "__defineGetter__"; "__defineSetter__"; "__lookupGetter__";
   "__lookupSetter__"].

Definition is_prototype_member (key : string) : bool :=
  existsb (String.eqb key) object_prototype_members.

(** The own property [key] of an object given by its own properties,
    first match; [None] when it has none. *)
Fixpoint own_lookup (key : string) (obj : list (string * string)) : option string :=
  match obj with
  | [] => None
  | (k, v) :: rest => if String.eqb key k then Some v else own_lookup key rest
  end.

(** Property read [obj[key]] on an object literal whose own properties
    are [obj] (none named [__proto__]): the own property if there is one,
    else the member inherited from [Object.prototype], else [undefined]. *)
Definition lookup (key : string) (obj : list (string * string)) : JsValue :=
  match own_lookup key obj with
  | Some v => JsString v
  | None =>
      if String.eqb key "__proto__" then JsObjectPrototype
      else if is_prototype_member key then JsFunction key
      else JsUndefined
  end.

(** Lines 198-206 of the [reaction_added] handler, over a given table:
    the ignore check [/QP/i], then the table read [lang = table[name]],
    then [if (!lang) return].  [None] means the handler returns;
    [Some lang] is the value it goes on with. *)
Definition resolve_in (table : list (string * string)) (reactionName : string)
  : option JsValue :=
  if matchQP reactionName then None
  else let lang := lookup reactionName table in
       if truthy_value lang then Some lang else None.

(** The resolution the handler performs, on [flagToLangCode]. *)
Definition resolve (reactionName : string) : option JsValue :=
  resolve_in flagToLangCode reactionName.

(* ------------------------------------------------------------------ *)
(** ** Outbound effects *)

(** The [target_lang] member of the JSON body when [targetLang] is not a
    string: [JSON.stringify] drops a function-valued member and writes
    [Object.prototype] as [{}]. *)
Inductive TargetJson : Type :=
| TargetOmitted
| TargetEmptyObject.

(** One entry per effect of a handler, in the order they happen.  A DeepL
    request is [DeepLPost] when [target_lang] is a string and
    [DeepLPostJson] otherwise. *)
Inductive Event : Type :=
| Ack
| ConversationsReplies (channel ts : string) (inclusive : bool)
| DeepLPost (url : string) (text : list string) (target_lang : string)
            (authorization : string)
| DeepLPostJson (url : string) (text : list string) (target : TargetJson)
                (authorization : string)
| ChatPostMessage (channel : string) (thread_ts : option string) (text : string)
| LogError (msg : string).

(** [translations[i]] of [DeepLTranslationResponse]. *)
Record Translation : Type := mkTranslation {
  detected_source_language : string;
  tr_text : string
}.

(** [result.data]: a falsy value, or an object whose [translations] field
    is absent ([None]) or an array. *)
Inductive DeepLData : Type :=
| DataFalsy
| DataObj (translations : option (list Translation)).

(** What the network answers to the POST: no response at all, or an HTTP
    response with a status and a body. *)
Inductive HttpReply : Type :=
| NetworkError
| HttpResponse (status : Z) (data : DeepLData).

(** [replies.messages[i]]: only [text] is read. *)
Record Message : Type := mkMessage { msg_text : option string }.

(** A Slack Web API call either answers or rejects its promise. *)
Inductive ApiResult (A : Type) : Type :=
| ApiOk (a : A)
| ApiError.
Arguments ApiOk {A} a.
Arguments ApiError {A}.

(** The environment variables [runDeepL] reads. *)
Record Config : Type := mkConfig {
  DEEPL_FREE_API_PLAN : option string;
  DEEPL_AUTH_KEY : option string
}.

(** The outside world: the answers of the Slack and DeepL endpoints. *)
Record World : Type := mkWorld {
  w_replies : string -> string -> ApiResult (option (list Message));
  w_deepl : string -> string -> string -> HttpReply;   (* url, text, target *)
  w_deepl_json : string -> string -> TargetJson -> HttpReply;
  w_post : string -> option string -> string -> ApiResult unit
}.

(** Outcome of an async computation: resolved with a value or rejected. *)
Inductive Outcome (A : Type) : Type :=
| Resolved (a : A)
| Rejected.
Arguments Resolved {A} a.
Arguments Rejected {A}.

(** The handler monad: the trace of effects so far is threaded through,
    and a computation may reject. *)
Definition M (A : Type) : Type := list Event -> Outcome A * list Event.

Definition ret {A} (a : A) : M A := fun t => (Resolved a, t).

Definition bind {A B} (m : M A) (k : A -> M B) : M B := fun t =>
  match m t with
  | (Resolved a, t') => k a t'
  | (Rejected, t') => (Rejected, t')
  end.

Notation "x <- m ;; k" := (bind m (fun x => k))
  (at level 61, m at next level, right associativity).
Notation "m ;;; k" := (bind m (fun _ => k))
  (at level 61, right associativity).

Definition emit (e : Event) : M unit := fun t => (Resolved tt, (t ++ [e])%list).

Definition reject {A} : M A := fun t => (Rejected, t).

(** [try { m } catch { h }]. *)
Definition try_catch {A} (m : M A) (h : M A) : M A := fun t =>
  match m t with
  | (Rejected, t') => h t'
  | r => r
  end.

(** Run from an empty trace. *)
Definition run {A} (m : M A) : Outcome A * list Event := m [].

Section Program.

Variable cfg : Config.
Variable w : World.

(** [axios.post]: one request; with the default [validateStatus], a
    status outside [200, 300) rejects, as does a network failure. *)
Definition axios_post (url : string) (text : string) (target_lang : string)
  (authorization : string) : M DeepLData :=
  emit (DeepLPost url [text] target_lang authorization);;;
  match w_deepl w url text target_lang with
  | NetworkError => reject
  | HttpResponse status data =>
      if (200 <=? status)%Z && (status <? 300)%Z then ret data else reject
  end.

(** The same POST when [target_lang] is not a string. *)
Definition axios_post_json (url : string) (text : string) (target : TargetJson)
  (authorization : string) : M DeepLData :=
  emit (DeepLPostJson url [text] target authorization);;;
  match w_deepl_json w url text target with
  | NetworkError => reject
  | HttpResponse status data =>
      if (200 <=? status)%Z && (status <? 300)%Z then ret data else reject
  end.

(** The POST with the body [{ text: [text], target_lang: targetLang }],
    by the runtime value of [targetLang]. *)
Definition axios_post_value (url : string) (text : string) (targetLang : JsValue)
  (authorization : string) : M DeepLData :=
  match targetLang with
  | JsString s => axios_post url text s authorization
  | JsFunction _ | JsUndefined => axios_post_json url text TargetOmitted authorization
  | JsObjectPrototype => axios_post_json url text TargetEmptyObject authorization
  end.

(** [client.conversations.replies]: resolves with [replies.messages]. *)
Definition conversations_replies (channel ts : string)
  : M (option (list Message)) :=
  emit (ConversationsReplies channel ts true);;;
  match w_replies w channel ts with
  | ApiOk ms => ret ms
  | ApiError => reject
  end.

(** [client.chat.postMessage]. *)
Definition chat_postMessage (channel : string) (thread_ts : option string)
  (text : string) : M unit :=
  emit (ChatPostMessage channel thread_ts text);;;
  match w_post w channel thread_ts text with
  | ApiOk u => ret u
  | ApiError => reject
  end.

Definition ack : M unit := emit Ack.

(** The marker [runDeepL] appends to every translation: ["\n\n[2026/1/15 VER]"]. *)
Definition ver_marker : string := nl ++ nl ++ "[2026/1/15 VER]".

Definition free_api_url : string := "https://api-free.deepl.com/v2/translate".
Definition pro_api_url : string := "https://api.deepl.com/v2/translate".

(** [process.env.DEEPL_FREE_API_PLAN === '1']. *)
Definition isFreePlan : bool :=
  match DEEPL_FREE_API_PLAN cfg with
  | Some v => String.eqb v "1"
  | None => false
  end.

Definition apiUrl : string := if isFreePlan then free_api_url else pro_api_url.

(** [`DeepL-Auth-Key ${process.env.DEEPL_AUTH_KEY}`]: an unset variable
    is rendered as ["undefined"]. *)
Definition authorization : string :=
  "DeepL-Auth-Key " ++
  match DEEPL_AUTH_KEY cfg with Some k => k | None => "undefined" end.

(** [runDeepL] (lines 39-73).  [targetLang] is typed [string] in the
    source, but the reaction handler passes whatever [flagToLangCode]
    holds under the reaction name, so it takes any value. *)
Definition runDeepL (text : string) (targetLang : JsValue) : M (option string) :=
  try_catch
    (result <- axios_post_value apiUrl text targetLang authorization;;
     match result with
     | DataObj (Some (tr :: _)) => ret (Some (tr_text tr ++ ver_marker))
     | _ => ret None
     end)
    (emit (LogError "Failed to call DeepL API");;; ret None).

(** [event.item] and [event] of a [reaction_added] event. *)
Record ReactionItem : Type := mkReactionItem {
  item_type : string;
  item_channel : string;
  item_ts : string
}.

Record ReactionEvent : Type := mkReactionEvent {
  reaction : string;
  item : ReactionItem
}.

(** The [reaction_added] handler (lines 193-231). *)
Definition onReactionAdded (event : ReactionEvent) : M unit :=
  if String.eqb (item_type (item event)) "message" then
    match resolve (reaction event) with
    | None => ret tt
    | Some lang =>
        replies <- conversations_replies (item_channel (item event))
                                         (item_ts (item event));;
        match replies with
        | Some (message :: _) =>
            if truthy_opt (msg_text message) then
              translatedText <-
                runDeepL (match msg_text message with
                          | Some t => t | None => "" end) lang;;
              if truthy_opt translatedText then
                chat_postMessage (item_channel (item event))
                  (Some (item_ts (item event)))
                  (match translatedText with Some t => t | None => "" end)
              else ret tt
            else ret tt
        | _ => ret tt
        end
    end
  else ret tt.

(** The two input values of the modal and the submitting user. *)
Record ViewSubmission : Type := mkViewSubmission {
  text_value : option string;
  lang_value : option string;
  user_id : string
}.

(** The direct message text:
    [`Translating "${text}" to ${lang}...\n\n> ${translatedText}`]. *)
Definition dm_text (text lang translatedText : string) : string :=
  "Translating " ++ dq ++ text ++ dq ++ " to " ++ lang ++ "..." ++
  nl ++ nl ++ "> " ++ translatedText.

(** The [view('deepl-modal')] handler (lines 272-286). *)
Definition onDeeplModal (sub : ViewSubmission) : M unit :=
  ack;;;
  match text_value sub, lang_value sub with
  | Some text, Some lang =>
      if truthy text && truthy lang then
        translatedText <- runDeepL text lang;;
        match translatedText with
        | Some translated =>
            if truthy translated then
              chat_postMessage (user_id sub) None (dm_text text lang translated)
            else ret tt
        | None => ret tt
        end
      else ret tt
  | _, _ => ret tt
  end.

End Program.

(* ------------------------------------------------------------------ *)
(** ** Vocabulary of the statements *)

Definition keys (obj : list (string * string)) : list string := map fst obj.

Fixpoint nodupb (l : list string) : bool :=
  match l with
  | [] => true
  | x :: rest => negb (existsb (String.eqb x) rest) && nodupb rest
  end.

(** [strip_prefix p k = Some k'] when [k = p ++ k']. *)
Fixpoint strip_prefix (p k : string) : option string :=
  match p, k with
  | EmptyString, _ => Some k
  | String c p', String d k' => if Ascii.eqb c d then strip_prefix p' k' else None
  | String _ _, EmptyString => None
  end.

(** The entries of [obj] whose key starts with [p], with [p] removed. *)
Fixpoint strip_entries (p : string) (obj : list (string * string))
  : list (string * string) :=
  match obj with
  | [] => []
  | (k, v) :: rest =>
      match strip_prefix p k with
      | Some k' => (k', v) :: strip_entries p rest
      | None => strip_entries p rest
      end
  end.

Definition ostr_eqb (a b : option string) : bool :=
  match a, b with
  | Some x, Some y => String.eqb x y
  | None, None => true
  | _, _ => false
  end.

Definition two (a b : ascii) : string := String a (String b EmptyString).

Definition is_lower (c : ascii) : bool :=
  (97 <=? nat_of_ascii c)%nat && (nat_of_ascii c <=? 122)%nat.
Definition is_upper (c : ascii) : bool :=
  (65 <=? nat_of_ascii c)%nat && (nat_of_ascii c <=? 90)%nat.

(** [String.prototype.toUpperCase] on ASCII letters. *)
Definition upper_ascii (c : ascii) : ascii :=
  if is_lower c then ascii_of_nat (nat_of_ascii c - 32) else c.

Fixpoint has_upper (s : string) : bool :=
  match s with
  | EmptyString => false
  | String c rest => is_upper c || has_upper rest
  end.

(** The reaction names the table maps under [flag-] but not bare. *)
Definition flag_only : list string := ["au"; "ca"; "at"; "ch"; "mx"].

Definition is_post (e : Event) : bool :=
  match e with ChatPostMessage _ _ _ => true | _ => false end.

(** The messages a trace posts. *)
Definition posts (t : list Event) : list Event := filter is_post t.

Definition substring_of (x s : string) : Prop :=
  exists pre post, s = pre ++ x ++ post.

(** The answers of the DeepL endpoint the spec calls failures. *)
Definition deepl_failure (r : HttpReply) : Prop :=
  r = NetworkError \/
  (exists status data, r = HttpResponse status data /\
                       ~ (200 <= status < 300)%Z) \/
  (exists status, r = HttpResponse status (DataObj (Some []))).

(** What [runDeepL] resolves with, given the endpoint's answer. *)
Definition deepl_result (r : HttpReply) : option string :=
  match r with
  | NetworkError => None
  | HttpResponse status data =>
      if (200 <=? status)%Z && (status <? 300)%Z then
        match data with
        | DataObj (Some (tr :: _)) => Some (tr_text tr ++ ver_marker)
        | _ => None
        end
      else None
  end.

(** The effects after the POST: a log line when axios rejects. *)
Definition deepl_log (r : HttpReply) : list Event :=
  match r with
  | NetworkError => [LogError "Failed to call DeepL API"]
  | HttpResponse status _ =>
      if (200 <=? status)%Z && (status <? 300)%Z then []
      else [LogError "Failed to call DeepL API"]
  end.

(** The request [runDeepL] sends for a target value. *)
Definition deepl_event (url text : string) (targetLang : JsValue)
  (authorization : string) : Event :=
  match targetLang with
  | JsString s => DeepLPost url [text] s authorization
  | JsFunction _ | JsUndefined => DeepLPostJson url [text] TargetOmitted authorization
  | JsObjectPrototype => DeepLPostJson url [text] TargetEmptyObject authorization
  end.

(** The endpoint's answer to that request. *)
Definition deepl_answer (w : World) (url text : string) (targetLang : JsValue)
  : HttpReply :=
  match targetLang with
  | JsString s => w_deepl w url text s
  | JsFunction _ | JsUndefined => w_deepl_json w url text TargetOmitted
  | JsObjectPrototype => w_deepl_json w url text TargetEmptyObject
  end.

(** Concrete inputs for the examples: a Pro-plan configuration, a world
    where every endpoint answers (DeepL with 400 to a request without a
    string [target_lang], which it requires), and the events of the
    spec's examples. *)
Definition sample_config : Config := mkConfig None (Some "secret").

Definition bonjour_world : World := mkWorld
  (fun _ _ => ApiOk (Some [mkMessage (Some "Hello")]))
  (fun _ _ _ => HttpResponse 200 (DataObj (Some [mkTranslation "EN" "Bonjour"])))
  (fun _ _ _ => HttpResponse 400 (DataObj None))
  (fun _ _ _ => ApiOk tt).

Definition failing_world : World := mkWorld
  (fun _ _ => ApiOk (Some [mkMessage (Some "Hello")]))
  (fun _ _ _ => HttpResponse 200 (DataObj (Some [])))
  (fun _ _ _ => HttpResponse 200 (DataObj (Some [])))
  (fun _ _ _ => ApiOk tt).

Definition sample_item : ReactionItem := mkReactionItem "message" "C01" "1700000000.000100".

Definition jp_event : ReactionEvent := mkReactionEvent "jp" sample_item.
Definition qp_event : ReactionEvent := mkReactionEvent "QP-custom" sample_item.
Definition constructor_event : ReactionEvent := mkReactionEvent "constructor" sample_item.
Definition file_event : ReactionEvent :=
  mkReactionEvent "jp" (mkReactionItem "file" "C01" "1700000000.000100").

Definition hi_submission : ViewSubmission := mkViewSubmission (Some "Hi") (Some "DE") "U01".

(* ------------------------------------------------------------------ *)
(** ** The shortcut and the modal it opens (lines 233-286) *)

(** An [input] block holding a [plain_text_input] element. *)
Record InputBlock : Type := mkInputBlock {
  block_id : string;
  action_id : string;
  multiline : bool;
  placeholder : string;
  initial_value : option string;
  label : string
}.

Record View : Type := mkView {
  view_type : string;
  callback_id : string;
  title : string;
  submit : string;
  close : string;
  blocks : list InputBlock
}.

(** The [view] argument of [client.views.open] (lines 238-268). *)
Definition deepl_modal_view : View := mkView
  "modal" "deepl-modal" "DeepL Translate" "Translate" "Close"
  [ mkInputBlock "text-block" "text" true "Text to translate" None "Text";
    mkInputBlock "lang-block" "lang" false "Language code (e.g. EN, JA, ZH)"
                 (Some "EN") "Target Language" ].

(** The effects of the shortcut handler. *)
Inductive ShortcutCall : Type :=
| ShortcutAck
| ViewsOpen (trigger_id : string) (view : View).

(** [app.shortcut('deepl-translation', ...)] (lines 234-270): [ack()],
    then [client.views.open], which may reject. *)
Definition onShortcut (views_open : string -> View -> ApiResult unit)
  (trigger_id : string) : Outcome unit * list ShortcutCall :=
  let t := [ShortcutAck; ViewsOpen trigger_id deepl_modal_view] in
  match views_open trigger_id deepl_modal_view with
  | ApiOk u => (Resolved u, t)
  | ApiError => (Rejected, t)
  end.

(** [view.state.values]: block id, then action id, then [value]. *)
Definition StateValues : Type := list (string * list (string * option string)).

(** The [state.values] Slack sends on submission of a view whose input
    blocks received [entered] (one value per block, in order). *)
Definition state_of_view (v : View) (entered : list (option string)) : StateValues :=
  map (fun '(b, x) => (block_id b, [(action_id b, x)])) (combine (blocks v) entered).

Fixpoint assoc {A : Type} (k : string) (l : list (string * A)) : option A :=
  match l with
  | [] => None
  | (k', a) :: rest => if String.eqb k k' then Some a else assoc k rest
  end.

(** Lines 274-275: [values['text-block']['text'].value] and
    [values['lang-block']['lang'].value]; reading [.value] or [['text']]
    of [undefined] throws, which is [None]. *)
Definition read_submission (values : StateValues) (user : string)
  : option ViewSubmission :=
  match assoc "text-block" values, assoc "lang-block" values with
  | Some tb, Some lb =>
      match assoc "text" tb, assoc "lang" lb with
      | Some text, Some lang => Some (mkViewSubmission text lang user)
      | _, _ => None
      end
  | _, _ => None
  end.

(** The whole [view('deepl-modal')] handler on the raw payload: [ack()]
    comes first (line 273), then the reads, which throw on a missing
    block; after a successful read it goes on as [onDeeplModal]. *)
Definition onDeeplModalPayload (cfg : Config) (w : World)
  (values : StateValues) (user : string) : M unit :=
  match read_submission values user with
  | Some sub => onDeeplModal cfg w sub
  | None => ack;;; reject
  end.

(** A world whose [chat.postMessage] fails. *)
Definition post_failing_world : World := mkWorld
  (fun _ _ => ApiOk (Some [mkMessage (Some "Hello")]))
  (fun _ _ _ => HttpResponse 200 (DataObj (Some [mkTranslation "EN" "Bonjour"])))
  (fun _ _ _ => HttpResponse 400 (DataObj None))
  (fun _ _ _ => ApiError).

Definition is_log (e : Event) : bool :=
  match e with LogError _ => true | _ => false end.

Definition is_deepl_post (e : Event) : bool :=
  match e with DeepLPost _ _ _ _ | DeepLPostJson _ _ _ _ => true | _ => false end.

(** The DeepL requests of a trace. *)
Definition deepl_posts (t : list Event) : list Event := filter is_deepl_post t.

(* ------------------------------------------------------------------ *)
(** ** General lemmas *)

Lemma own_lookup_not_key (k : string) (obj : list (string * string)) :
  ~ In k (keys obj) -> own_lookup k obj = None.
Proof.
  induction obj as [|[k' v] rest IH]; simpl; intros Hn; [reflexivity|].
  destruct (String.eqb_spec k k') as [->|_]; [exfalso; tauto|].
  apply IH; tauto.
Qed.

Lemma own_lookup_Some_In (k v : string) (obj : list (string * string)) :
  own_lookup k obj = Some v -> In (k, v) obj.
Proof.
  induction obj as [|[k' v'] rest IH]; simpl; [discriminate|].
  destruct (String.eqb_spec k k') as [->|_]; [intros H; injection H as ->; auto|].
  intros H. right. auto.
Qed.

Lemma own_lookup_None_not_In (k : string) (obj : list (string * string)) :
  own_lookup k obj = None -> ~ In k (keys obj).
Proof.
  induction obj as [|[k' v'] rest IH]; simpl; [tauto|].
  destruct (String.eqb_spec k k') as [->|Hne]; [discriminate|].
  intros H [Heq|Hin]; [congruence|exact (IH H Hin)].
Qed.

Lemma nodupb_NoDup (l : list string) : nodupb l = true -> NoDup l.
Proof.
  induction l as [|x rest IH]; simpl; intros H; [constructor|].
  apply andb_true_iff in H as [Hx Hr].
  constructor; [|auto].
  intros Hin. apply negb_true_iff in Hx.
  assert (existsb (String.eqb x) rest = true) as Hc
    by (apply existsb_exists; exists x; split; [exact Hin | apply String.eqb_refl]).
  congruence.
Qed.

Lemma own_lookup_In_NoDup (k v : string) (obj : list (string * string)) :
  NoDup (keys obj) -> In (k, v) obj -> own_lookup k obj = Some v.
Proof.
  induction obj as [|[k' v'] rest IH]; simpl; intros Hnd Hin; [contradiction|].
  inversion Hnd as [|? ? Hnk Hnd']; subst.
  destruct Hin as [Heq|Hin].
  - injection Heq as -> ->. rewrite String.eqb_refl. reflexivity.
  - destruct (String.eqb_spec k k') as [->|_]; [|auto].
    exfalso. apply Hnk. apply (in_map fst) in Hin. exact Hin.
Qed.

Lemma ostr_eqb_eq (a b : option string) : ostr_eqb a b = true -> a = b.
Proof.
  destruct a, b; simpl; try discriminate; [|reflexivity].
  intros H. apply String.eqb_eq in H. congruence.
Qed.

(** Two tables answer alike on every key satisfying [P] when they answer
    alike on each of their keys satisfying [P]. *)
Lemma own_lookup_ext_keys (P : string -> Prop) (obj1 obj2 : list (string * string)) :
  (forall k, In k (keys obj1 ++ keys obj2) -> P k -> own_lookup k obj1 = own_lookup k obj2) ->
  forall s, P s -> own_lookup s obj1 = own_lookup s obj2.
Proof.
  intros H s Hs.
  destruct (in_dec string_dec s (keys obj1 ++ keys obj2)) as [Hin|Hout];
    [auto|].
  rewrite !own_lookup_not_key; [reflexivity| |];
    intros Hk; apply Hout, in_or_app; tauto.
Qed.

Lemma strip_prefix_eqb (p s k : string) :
  String.eqb (p ++ s) k =
  match strip_prefix p k with Some k' => String.eqb s k' | None => false end.
Proof.
  revert k. induction p as [|c p IH]; intros [|d k]; simpl; try reflexivity.
  destruct (Ascii.eqb c d); [apply IH|reflexivity].
Qed.

Lemma own_lookup_prefix (p s : string) (obj : list (string * string)) :
  own_lookup (p ++ s) obj = own_lookup s (strip_entries p obj).
Proof.
  induction obj as [|[k v] rest IH]; simpl; [reflexivity|].
  rewrite strip_prefix_eqb.
  destruct (strip_prefix p k) as [k'|]; simpl; [|exact IH].
  destruct (String.eqb s k'); [reflexivity|exact IH].
Qed.

Lemma matchQP_flag (s : string) : matchQP ("flag-" ++ s) = matchQP s.
Proof. destruct s; reflexivity. Qed.

Lemma flagToLangCode_keys_NoDup : NoDup (keys flagToLangCode).
Proof. apply nodupb_NoDup. vm_compute. reflexivity. Qed.

Lemma prototype_member_length (k : string) :
  is_prototype_member k = true -> (2 < String.length k)%nat.
Proof.
  unfold is_prototype_member. intros H.
  apply existsb_exists in H as [m [Hin Heq]]. apply String.eqb_eq in Heq. subst m.
  repeat (destruct Hin as [<-|Hin]; [simpl; lia|]). contradiction.
Qed.

Lemma two_not_prototype_member (a b : ascii) : is_prototype_member (two a b) = false.
Proof.
  destruct (is_prototype_member (two a b)) eqn:E; [|reflexivity].
  apply prototype_member_length in E. simpl in E. lia.
Qed.

Lemma flag_not_prototype_member (s : string) :
  is_prototype_member ("flag-" ++ s) = false.
Proof. reflexivity. Qed.

(** Off the inherited members, a property read gives the own entry or
    [undefined]. *)
Lemma lookup_own (k : string) (obj : list (string * string)) :
  is_prototype_member k = false ->
  lookup k obj = match own_lookup k obj with
                 | Some v => JsString v
                 | None => JsUndefined
                 end.
Proof.
  intros H. unfold lookup. destruct (own_lookup k obj); [reflexivity|].
  rewrite H. destruct (String.eqb_spec k "__proto__") as [->|_];
    [vm_compute in H; discriminate H|reflexivity].
Qed.

(** [runDeepL] never rejects: it posts once, maybe logs, and resolves
    with [deepl_result] of the endpoint's answer. *)
Lemma runDeepL_value_eq (cfg : Config) (w : World) (text : string)
  (lang : JsValue) (t0 : list Event) :
  runDeepL cfg w text lang t0 =
  (Resolved (deepl_result (deepl_answer w (apiUrl cfg) text lang)),
   (t0 ++ [deepl_event (apiUrl cfg) text lang (authorization cfg)] ++
    deepl_log (deepl_answer w (apiUrl cfg) text lang))%list).
Proof.
  unfold runDeepL, try_catch, bind, axios_post_value, axios_post, axios_post_json,
    emit, reject, ret.
  destruct lang as [s|name| |]; cbv beta iota; cbn [deepl_answer deepl_event];
  match goal with
  | |- context [deepl_result ?r] =>
      destruct r as [|status data]; simpl;
      [ rewrite <- app_assoc; reflexivity
      | destruct ((200 <=? status)%Z && (status <? 300)%Z); simpl;
        [ destruct data as [|[[|tr trs]|]]; reflexivity
        | rewrite <- app_assoc; reflexivity ] ]
  end.
Qed.

Lemma runDeepL_eq (cfg : Config) (w : World) (text lang : string)
  (t0 : list Event) :
  runDeepL cfg w text lang t0 =
  (Resolved (deepl_result (w_deepl w (apiUrl cfg) text lang)),
   (t0 ++ [DeepLPost (apiUrl cfg) [text] lang (authorization cfg)] ++
    deepl_log (w_deepl w (apiUrl cfg) text lang))%list).
Proof. exact (runDeepL_value_eq cfg w text (JsString lang) t0). Qed.

Lemma posts_app (t1 t2 : list Event) :
  posts (t1 ++ t2) = (posts t1 ++ posts t2)%list.
Proof. unfold posts. apply filter_app. Qed.

Lemma posts_deepl_log (r : HttpReply) : posts (deepl_log r) = [].
Proof.
  destruct r as [|status data]; simpl; [reflexivity|].
  destruct ((200 <=? status)%Z && (status <? 300)%Z); reflexivity.
Qed.

Lemma posts_deepl_event (url text : string) (v : JsValue) (auth : string) :
  posts [deepl_event url text v auth] = [].
Proof. destruct v; reflexivity. Qed.

Lemma deepl_failure_result (r : HttpReply) :
  deepl_failure r -> deepl_result r = None.
Proof.
  intros [->|[[status [data [-> Hst]]]|[status ->]]]; simpl; [reflexivity| |].
  - destruct ((200 <=? status)%Z && (status <? 300)%Z) eqn:E; [|reflexivity].
    apply andb_true_iff in E as [E1 E2].
    apply Z.leb_le in E1. apply Z.ltb_lt in E2. lia.
  - destruct ((200 <=? status)%Z && (status <? 300)%Z); reflexivity.
Qed.

Lemma str_app_assoc (a b c : string) : (a ++ b) ++ c = a ++ (b ++ c).
Proof. induction a as [|x a IH]; simpl; [reflexivity|]. rewrite IH. reflexivity. Qed.

Lemma str_app_nil_r (a : string) : a ++ "" = a.
Proof. induction a as [|x a IH]; simpl; [reflexivity|]. rewrite IH. reflexivity. Qed.

Lemma deepl_result_truthy (r : HttpReply) (x : string) :
  deepl_result r = Some x -> truthy x = true.
Proof.
  intros H. assert (Hx : exists y, x = y ++ ver_marker).
  { destruct r as [|status data]; simpl in H; [discriminate|].
    destruct ((200 <=? status)%Z && (status <? 300)%Z); [|discriminate].
    destruct data as [|[[|tr trs]|]]; try discriminate.
    injection H as <-. eauto. }
  destruct Hx as [y ->]. destruct y; reflexivity.
Qed.

Lemma is_lower_upper (c : ascii) : is_lower c = true -> is_upper (upper_ascii c) = true.
Proof.
  destruct c as [[] [] [] [] [] [] [] []]; vm_compute;
    intros H; first [reflexivity | discriminate H].
Qed.

Lemma upper_not_key (s : string) :
  has_upper s = true -> ~ In s (keys flagToLangCode).
Proof.
  intros Hs Hin.
  assert (Hall : forallb (fun k => negb (has_upper k)) (keys flagToLangCode) = true)
    by (vm_compute; reflexivity).
  rewrite forallb_forall in Hall. specialize (Hall s Hin).
  rewrite Hs in Hall. discriminate.
Qed.

(** Off [flag_only], the table answers for [flag-xx] as for [xx]. *)
Lemma own_lookup_flag_two (a b : ascii) :
  ~ In (two a b) flag_only ->
  own_lookup (two a b) (strip_entries "flag-" flagToLangCode) =
  own_lookup (two a b) flagToLangCode.
Proof.
  intros Hn.
  apply (own_lookup_ext_keys (fun k => String.length k = 2 /\ ~ In k flag_only));
    [|split; [reflexivity|exact Hn]].
  intros k Hk [Hlen Hno].
  assert (Hall : forallb
    (fun k => negb (String.length k =? 2)%nat || existsb (String.eqb k) flag_only ||
              ostr_eqb (own_lookup k (strip_entries "flag-" flagToLangCode))
                       (own_lookup k flagToLangCode))
    (keys (strip_entries "flag-" flagToLangCode) ++ keys flagToLangCode) = true)
    by (vm_compute; reflexivity).
  rewrite forallb_forall in Hall. specialize (Hall k Hk).
  apply orb_true_iff in Hall as [Hall|Hall]; [apply orb_true_iff in Hall as [Hall|Hall]|].
  - rewrite Hlen in Hall. discriminate.
  - exfalso. apply Hno. apply existsb_exists in Hall as [k' [Hin Heq]].
    apply String.eqb_eq in Heq. subst. exact Hin.
  - apply ostr_eqb_eq. exact Hall.
Qed.

Lemma truthy_neq (t : string) : t <> "" -> truthy t = true.
Proof. intros H. apply negb_true_iff, String.eqb_neq. exact H. Qed.

Lemma truthy_eq (t : string) : truthy t = true -> t <> "".
Proof. intros H Ht. subst. discriminate H. Qed.

(** On a message with text whose reaction resolves, the handler posts
    exactly what [runDeepL] resolves with, threaded under the item. *)
Lemma onReactionAdded_posts (cfg : Config) (w : World) (event : ReactionEvent)
  (lang : JsValue) (m : Message) (ms : list Message) (t : string) :
  item_type (item event) = "message" ->
  resolve (reaction event) = Some lang ->
  w_replies w (item_channel (item event)) (item_ts (item event)) = ApiOk (Some (m :: ms)) ->
  msg_text m = Some t -> t <> "" ->
  posts (snd (run (onReactionAdded cfg w event))) =
  match deepl_result (deepl_answer w (apiUrl cfg) t lang) with
  | Some x => [ChatPostMessage (item_channel (item event)) (Some (item_ts (item event))) x]
  | None => []
  end.
Proof.
  intros Hty Hres Hrep Htext Ht.
  unfold run, onReactionAdded. rewrite Hty, Hres, String.eqb_refl.
  unfold conversations_replies, chat_postMessage, bind, emit, ret, reject.
  rewrite Hrep. cbv beta iota. rewrite Htext.
  replace (truthy_opt (Some t)) with true by (symmetry; exact (truthy_neq t Ht)).
  rewrite runDeepL_value_eq.
  destruct (deepl_result (deepl_answer w (apiUrl cfg) t lang)) as [x|] eqn:Hx;
    cbv beta iota.
  - replace (truthy_opt (Some x)) with true
      by (symmetry; exact (deepl_result_truthy _ _ Hx)).
    destruct (w_post w _ _ _); cbn [snd];
      rewrite !posts_app, posts_deepl_log, posts_deepl_event; reflexivity.
  - change (truthy_opt None) with false. cbv beta iota. cbn [snd].
    rewrite !posts_app, posts_deepl_log, posts_deepl_event. reflexivity.
Qed.

(** On every other path the handler posts nothing. *)
Lemma onReactionAdded_no_post (cfg : Config) (w : World) (event : ReactionEvent) :
  posts (snd (run (onReactionAdded cfg w event))) = [] \/
  exists lang m ms t,
    item_type (item event) = "message" /\
    resolve (reaction event) = Some lang /\
    w_replies w (item_channel (item event)) (item_ts (item event)) = ApiOk (Some (m :: ms)) /\
    msg_text m = Some t /\ t <> "".
Proof.
  unfold run, onReactionAdded.
  destruct (String.eqb_spec (item_type (item event)) "message") as [Hty|];
    [|left; reflexivity].
  destruct (resolve (reaction event)) as [lang|] eqn:Hres; [|left; reflexivity].
  destruct (w_replies w (item_channel (item event)) (item_ts (item event)))
    as [[[|m ms]|]|] eqn:Hrep;
    [| |left; unfold conversations_replies, bind, emit, ret;
        rewrite Hrep; reflexivity
       |left; unfold conversations_replies, bind, emit, reject;
        rewrite Hrep; reflexivity].
  - left. unfold conversations_replies, bind, emit, ret. rewrite Hrep. reflexivity.
  - destruct (truthy_opt (msg_text m)) eqn:Htx.
    + right. destruct (msg_text m) as [t|] eqn:Ht; [|discriminate].
      exists lang, m, ms, t. repeat split; auto. apply truthy_eq. exact Htx.
    + left. unfold conversations_replies, bind, emit, ret. rewrite Hrep.
      cbv beta iota. rewrite Htx. reflexivity.
Qed.

(** The modal handler posts what [runDeepL] resolves with, as a direct
    message to the submitting user, when both inputs are non-empty; it
    posts nothing otherwise. *)
Lemma onDeeplModal_posts (cfg : Config) (w : World) (sub : ViewSubmission) :
  posts (snd (run (onDeeplModal cfg w sub))) =
  match text_value sub, lang_value sub with
  | Some text, Some lang =>
      if truthy text && truthy lang then
        match deepl_result (w_deepl w (apiUrl cfg) text lang) with
        | Some x => [ChatPostMessage (user_id sub) None (dm_text text lang x)]
        | None => []
        end
      else []
  | _, _ => []
  end.
Proof.
  unfold run, onDeeplModal, ack.
  unfold chat_postMessage, bind, emit, ret, reject. cbv beta iota.
  destruct (text_value sub) as [text|], (lang_value sub) as [lang|];
    try reflexivity.
  destruct (truthy text && truthy lang); [|reflexivity].
  rewrite runDeepL_eq.
  destruct (deepl_result (w_deepl w (apiUrl cfg) text lang)) as [x|] eqn:Hx;
    cbv beta iota.
  - replace (truthy x) with true
      by (symmetry; exact (deepl_result_truthy _ _ Hx)).
    destruct (w_post w _ _ _); cbn [snd];
      rewrite !posts_app, posts_deepl_log; reflexivity.
  - cbn [snd]. rewrite !posts_app, posts_deepl_log. reflexivity.
Qed.

(* ------------------------------------------------------------------ *)
(** ** Resolution of reaction names *)

(** C1 (corrected): a two-letter reaction name that is not a key of
    [flagToLangCode] resolves to no language; the handler ignores it and
    there is no upper-cased pass-through. *)
Theorem resolve_unmapped_two_letter (a b : ascii) :
  ~ In (two a b) (keys flagToLangCode) -> resolve (two a b) = None.
Proof.
  intros Hn. unfold resolve, resolve_in.
  rewrite (lookup_own _ _ (two_not_prototype_member a b)),
          (own_lookup_not_key _ _ Hn).
  destruct (matchQP (two a b)); reflexivity.
Qed.

Lemma resolve_unmapped_two_letter_witness :
  ~ In (two "x" "x") (keys flagToLangCode) /\ resolve (two "x" "x") = None.
Proof.
  assert (Hn : ~ In (two "x" "x") (keys flagToLangCode))
    by (vm_compute; intuition discriminate).
  split; [exact Hn|].
  apply (resolve_unmapped_two_letter "x" "x" Hn).
Defined.

(** C1 counterexample: ["xx"] does not resolve to ["XX"]. *)
Lemma resolve_xx_not_passthrough : resolve "xx" <> Some (JsString "XX").
Proof. vm_compute. discriminate. Qed.

(** C3 (corrected): lookup is case-sensitive.  The keys are lower-case,
    so the upper-cased form of a two-letter lower-case name resolves to
    no language, and it agrees with the lower-case form exactly when that
    one resolves to no language either. *)
Theorem resolve_upper_case_unmapped (a b : ascii) :
  is_lower a = true -> is_lower b = true ->
  resolve (two (upper_ascii a) (upper_ascii b)) = None /\
  (resolve (two a b) = resolve (two (upper_ascii a) (upper_ascii b)) <->
   resolve (two a b) = None).
Proof.
  intros Ha Hb.
  assert (Hu : resolve (two (upper_ascii a) (upper_ascii b)) = None).
  { unfold resolve, resolve_in.
    rewrite (lookup_own _ _ (two_not_prototype_member _ _)), own_lookup_not_key.
    - destruct (matchQP _); reflexivity.
    - apply upper_not_key. simpl. rewrite (is_lower_upper a Ha). reflexivity. }
  split; [exact Hu|]. rewrite Hu. tauto.
Qed.

Lemma resolve_upper_case_unmapped_witness :
  resolve (two "J" "P") = None /\ resolve (two "j" "p") = Some (JsString "JA").
Proof.
  split; [|vm_compute; reflexivity].
  apply (proj1 (resolve_upper_case_unmapped "j" "p" eq_refl eq_refl)).
Defined.

(** C3 counterexample: ["jp"] and ["JP"] resolve differently. *)
Lemma resolve_jp_JP_differ : resolve "jp" <> resolve "JP".
Proof. vm_compute. discriminate. Qed.

(** C4 (corrected): [flag-xx] resolves like [xx] for every two-character
    [xx] except [au], [ca], [at], [ch] and [mx]; for those five only the
    [flag-] form is in the table: [flag-au], [flag-ca], [flag-at],
    [flag-ch] and [flag-mx] resolve to [EN-GB], [EN-US], [DE], [DE] and
    [ES], and the bare forms resolve to nothing. *)
Theorem resolve_flag_prefix :
  (forall a b, ~ In (two a b) flag_only ->
               resolve ("flag-" ++ two a b) = resolve (two a b)) /\
  resolve "flag-au" = Some (JsString "EN-GB") /\
  resolve "flag-ca" = Some (JsString "EN-US") /\
  resolve "flag-at" = Some (JsString "DE") /\
  resolve "flag-ch" = Some (JsString "DE") /\
  resolve "flag-mx" = Some (JsString "ES") /\
  (forall x, In x flag_only -> resolve x = None).
Proof.
  split.
  - intros a b Hn. unfold resolve, resolve_in.
    rewrite matchQP_flag. destruct (matchQP (two a b)); [reflexivity|].
    rewrite (lookup_own _ _ (flag_not_prototype_member _)),
            (lookup_own _ _ (two_not_prototype_member a b)).
    rewrite own_lookup_prefix, (own_lookup_flag_two a b Hn). reflexivity.
  - do 5 (split; [vm_compute; reflexivity|]).
    intros x Hin.
    repeat (destruct Hin as [<-|Hin]; [vm_compute; reflexivity|]).
    contradiction.
Qed.

Lemma resolve_flag_prefix_witness :
  ~ In (two "j" "p") flag_only /\
  resolve ("flag-" ++ two "j" "p") = resolve (two "j" "p").
Proof.
  assert (Hn : ~ In (two "j" "p") flag_only) by (vm_compute; intuition discriminate).
  split; [exact Hn|].
  apply (proj1 resolve_flag_prefix "j"%char "p"%char Hn).
Defined.

(** C4 counterexample: [flag-au] resolves to [EN-GB], [au] to nothing. *)
Lemma resolve_flag_au_differs : resolve "flag-au" <> resolve "au".
Proof. vm_compute. discriminate. Qed.

(** C5: a reaction name matching [/QP/i] resolves to nothing whatever the
    table holds, and the handler returns before any outbound call. *)
Theorem ignore_pattern_no_effect :
  (forall table s, matchQP s = true -> resolve_in table s = None) /\
  (forall cfg w event, matchQP (reaction event) = true ->
     run (onReactionAdded cfg w event) = (Resolved tt, [])).
Proof.
  split.
  - intros table s H. unfold resolve_in. rewrite H. reflexivity.
  - intros cfg w event H. unfold run, onReactionAdded, resolve, resolve_in.
    rewrite H. destruct (String.eqb _ _); reflexivity.
Qed.

Lemma ignore_pattern_no_effect_witness :
  resolve_in [("QP-custom", "JA")] "QP-custom" = None /\
  run (onReactionAdded sample_config bonjour_world qp_event) = (Resolved tt, []).
Proof.
  split.
  - apply (proj1 ignore_pattern_no_effect). vm_compute. reflexivity.
  - apply (proj2 ignore_pattern_no_effect). vm_compute. reflexivity.
Defined.

(** C7: every key of [flagToLangCode] resolves to the code recorded for
    it; in particular [flag-jp] and [jp] give [JA], [flag-br] and [br]
    give [PT-BR]. *)
Theorem resolve_table_entries :
  resolve "flag-jp" = Some (JsString "JA") /\ resolve "jp" = Some (JsString "JA") /\
  resolve "flag-br" = Some (JsString "PT-BR") /\ resolve "br" = Some (JsString "PT-BR") /\
  (forall k v, In (k, v) flagToLangCode -> resolve k = Some (JsString v)).
Proof.
  split; [reflexivity|]. split; [reflexivity|].
  split; [reflexivity|]. split; [reflexivity|].
  intros k v Hin. unfold resolve, resolve_in.
  assert (Hall : forallb (fun e => negb (matchQP (fst e)) &&
                                  negb (is_prototype_member (fst e)) && truthy (snd e))
                         flagToLangCode = true)
    by (vm_compute; reflexivity).
  rewrite forallb_forall in Hall. specialize (Hall _ Hin). simpl in Hall.
  apply andb_true_iff in Hall as [Hall Hv]. apply andb_true_iff in Hall as [Hq Hp].
  apply negb_true_iff in Hq. apply negb_true_iff in Hp.
  rewrite Hq, (lookup_own _ _ Hp),
          (own_lookup_In_NoDup k v _ flagToLangCode_keys_NoDup Hin).
  simpl. rewrite Hv. reflexivity.
Qed.

Lemma resolve_table_entries_witness :
  In ("flag-mx", "ES") flagToLangCode /\ resolve "flag-mx" = Some (JsString "ES").
Proof.
  assert (Hin : In ("flag-mx", "ES") flagToLangCode)
    by (simpl; repeat (first [left; reflexivity | right])).
  split; [exact Hin|].
  apply (proj2 (proj2 (proj2 (proj2 resolve_table_entries))) _ _ Hin).
Defined.

(** C10: on an item that is not a message the handler does nothing. *)
Theorem non_message_item_no_effect (cfg : Config) (w : World) (event : ReactionEvent) :
  item_type (item event) <> "message" ->
  run (onReactionAdded cfg w event) = (Resolved tt, []).
Proof.
  intros H. unfold run, onReactionAdded.
  destruct (String.eqb_spec (item_type (item event)) "message"); [contradiction|].
  reflexivity.
Qed.

Lemma non_message_item_no_effect_witness :
  run (onReactionAdded sample_config bonjour_world file_event) = (Resolved tt, []).
Proof. apply non_message_item_no_effect. vm_compute. discriminate. Defined.

(* ------------------------------------------------------------------ *)
(** ** [runDeepL] and the handlers *)

(** C2 (corrected): on a 2xx answer with at least one translation,
    [runDeepL] resolves with the first translation's text followed by the
    marker ["\n\n[2026/1/15 VER]"]. *)
Theorem runDeepL_first_translation (cfg : Config) (w : World)
  (text lang : string) (status : Z) (tr : Translation) (trs : list Translation) :
  w_deepl w (apiUrl cfg) text lang = HttpResponse status (DataObj (Some (tr :: trs))) ->
  (200 <= status < 300)%Z ->
  fst (run (runDeepL cfg w text lang)) = Resolved (Some (tr_text tr ++ ver_marker)).
Proof.
  intros Hw Hst. unfold run. rewrite runDeepL_eq, Hw. simpl.
  replace ((200 <=? status)%Z && (status <? 300)%Z) with true; [reflexivity|].
  symmetry. apply andb_true_iff. split; [apply Z.leb_le | apply Z.ltb_lt]; lia.
Qed.

Lemma runDeepL_first_translation_witness :
  fst (run (runDeepL sample_config bonjour_world "Hello" "FR")) =
  Resolved (Some ("Bonjour" ++ ver_marker)).
Proof.
  apply (runDeepL_first_translation sample_config bonjour_world "Hello" "FR" 200
           (mkTranslation "EN" "Bonjour") []); [reflexivity | lia].
Defined.

(** C2 counterexample: with the answer [{translations: [{text: "Bonjour"}]}]
    the result is not ["Bonjour"]. *)
Lemma runDeepL_bonjour_not_plain :
  fst (run (runDeepL sample_config bonjour_world "Hello" "FR")) <>
  Resolved (Some "Bonjour").
Proof. vm_compute. discriminate. Qed.

(** C6: on a network failure, a non-2xx answer or an empty translations
    list, [runDeepL] resolves (it does not reject) with [null], whatever
    the target value; when every DeepL request fails, neither handler
    posts a message. *)
Theorem translation_failure_posts_nothing :
  (forall cfg w text (lang : JsValue) t0,
     deepl_failure (deepl_answer w (apiUrl cfg) text lang) ->
     fst (runDeepL cfg w text lang t0) = Resolved None) /\
  (forall cfg w event,
     (forall url text lang, deepl_failure (deepl_answer w url text lang)) ->
     posts (snd (run (onReactionAdded cfg w event))) = []) /\
  (forall cfg w sub,
     (forall url text lang, deepl_failure (deepl_answer w url text lang)) ->
     posts (snd (run (onDeeplModal cfg w sub))) = []).
Proof.
  split; [|split].
  - intros cfg w text lang t0 Hf.
    rewrite runDeepL_value_eq, (deepl_failure_result _ Hf). reflexivity.
  - intros cfg w event Hf.
    destruct (onReactionAdded_no_post cfg w event)
      as [H|[lang [m [ms [t [H1 [H2 [H3 [H4 H5]]]]]]]]]; [exact H|].
    rewrite (onReactionAdded_posts cfg w event lang m ms t H1 H2 H3 H4 H5).
    rewrite (deepl_failure_result _ (Hf _ _ _)). reflexivity.
  - intros cfg w sub Hf. rewrite onDeeplModal_posts.
    destruct (text_value sub) as [text|], (lang_value sub) as [lang|];
      try reflexivity.
    destruct (truthy text && truthy lang); [|reflexivity].
    specialize (Hf (apiUrl cfg) text (JsString lang)). cbn [deepl_answer] in Hf.
    rewrite (deepl_failure_result _ Hf). reflexivity.
Qed.

Lemma translation_failure_posts_nothing_witness :
  fst (runDeepL sample_config failing_world "Hello" "FR" []) = Resolved None /\
  posts (snd (run (onReactionAdded sample_config failing_world jp_event))) = [] /\
  posts (snd (run (onDeeplModal sample_config failing_world hi_submission))) = [].
Proof.
  assert (Hf : forall url text lang,
            deepl_failure (deepl_answer failing_world url text lang))
    by (intros url text lang; right; right; exists 200%Z; destruct lang; reflexivity).
  split; [|split].
  - apply (proj1 translation_failure_posts_nothing). apply Hf.
  - apply (proj1 (proj2 translation_failure_posts_nothing)). exact Hf.
  - apply (proj2 (proj2 translation_failure_posts_nothing)). exact Hf.
Defined.

(** C8: when the reaction resolves, the fetched message has text and the
    translation returns a result, the handler posts exactly one message:
    that result, in the item's channel, threaded under the item's
    timestamp. *)
Theorem reaction_posts_one_threaded_reply (cfg : Config) (w : World)
  (event : ReactionEvent) (lang : string) (m : Message) (ms : list Message)
  (t r : string) :
  item_type (item event) = "message" ->
  resolve (reaction event) = Some (JsString lang) ->
  w_replies w (item_channel (item event)) (item_ts (item event)) = ApiOk (Some (m :: ms)) ->
  msg_text m = Some t -> t <> "" ->
  fst (run (runDeepL cfg w t lang)) = Resolved (Some r) ->
  posts (snd (run (onReactionAdded cfg w event))) =
  [ChatPostMessage (item_channel (item event)) (Some (item_ts (item event))) r].
Proof.
  intros H1 H2 H3 H4 H5 Hr.
  rewrite (onReactionAdded_posts cfg w event _ m ms t H1 H2 H3 H4 H5).
  cbn [deepl_answer].
  unfold run in Hr. rewrite runDeepL_eq in Hr. simpl in Hr.
  injection Hr as ->. reflexivity.
Qed.

Lemma reaction_posts_one_threaded_reply_witness :
  posts (snd (run (onReactionAdded sample_config bonjour_world jp_event))) =
  [ChatPostMessage "C01" (Some "1700000000.000100") ("Bonjour" ++ ver_marker)].
Proof.
  apply (reaction_posts_one_threaded_reply sample_config bonjour_world jp_event
           "JA" (mkMessage (Some "Hello")) [] "Hello");
    first [reflexivity | discriminate | vm_compute; reflexivity].
Defined.

(** C9: on a submission with two non-empty inputs, a successful
    translation gives exactly one direct message to the submitting user,
    holding the original text, the language code and the translation; a
    failed one gives no message. *)
Theorem modal_dm_on_success (cfg : Config) (w : World) (sub : ViewSubmission)
  (text lang : string) :
  text_value sub = Some text -> lang_value sub = Some lang ->
  text <> "" -> lang <> "" ->
  (forall r, fst (run (runDeepL cfg w text lang)) = Resolved (Some r) ->
     posts (snd (run (onDeeplModal cfg w sub))) =
       [ChatPostMessage (user_id sub) None (dm_text text lang r)] /\
     substring_of text (dm_text text lang r) /\
     substring_of lang (dm_text text lang r) /\
     substring_of r (dm_text text lang r)) /\
  (fst (run (runDeepL cfg w text lang)) = Resolved None ->
     posts (snd (run (onDeeplModal cfg w sub))) = []).
Proof.
  intros Htx Hlg Ht Hl.
  rewrite onDeeplModal_posts, Htx, Hlg, (truthy_neq _ Ht), (truthy_neq _ Hl).
  unfold run. rewrite runDeepL_eq. cbn [fst andb].
  split.
  - intros r Hr. injection Hr as ->. split; [reflexivity|].
    unfold substring_of, dm_text. split; [|split].
    + exists ("Translating " ++ dq),
             (dq ++ " to " ++ lang ++ "..." ++ nl ++ nl ++ "> " ++ r).
      rewrite str_app_assoc. reflexivity.
    + exists ("Translating " ++ dq ++ text ++ dq ++ " to "),
             ("..." ++ nl ++ nl ++ "> " ++ r).
      rewrite !str_app_assoc. reflexivity.
    + exists ("Translating " ++ dq ++ text ++ dq ++ " to " ++ lang ++ "..." ++
              nl ++ nl ++ "> "), "".
      rewrite str_app_nil_r, !str_app_assoc. reflexivity.
  - intros Hr. injection Hr as ->. reflexivity.
Qed.

Lemma modal_dm_on_success_witness :
  posts (snd (run (onDeeplModal sample_config bonjour_world hi_submission))) =
  [ChatPostMessage "U01" None (dm_text "Hi" "DE" ("Bonjour" ++ ver_marker))].
Proof.
  apply (proj1 (modal_dm_on_success sample_config bonjour_world hi_submission
                  "Hi" "DE" eq_refl eq_refl ltac:(discriminate) ltac:(discriminate))).
  vm_compute. reflexivity.
Defined.

(* ------------------------------------------------------------------ *)
(** ** Whole runs of the handlers *)

(** Every run of the [reaction_added] handler is one of three: it returns
    at once; it fetches the replies and stops there; or it fetches a
    message with text, calls DeepL once, and posts what DeepL returned. *)
Lemma onReactionAdded_run (cfg : Config) (w : World) (event : ReactionEvent) :
  let ch := item_channel (item event) in
  let ts := item_ts (item event) in
  run (onReactionAdded cfg w event) = (Resolved tt, []) \/
  (item_type (item event) = "message" /\ resolve (reaction event) <> None /\
   ((w_replies w ch ts = ApiError /\
     run (onReactionAdded cfg w event) = (Rejected, [ConversationsReplies ch ts true])) \/
    ((w_replies w ch ts = ApiOk None \/ w_replies w ch ts = ApiOk (Some []) \/
      exists m ms, w_replies w ch ts = ApiOk (Some (m :: ms)) /\
                   truthy_opt (msg_text m) = false) /\
     run (onReactionAdded cfg w event) = (Resolved tt, [ConversationsReplies ch ts true])))) \/
  (exists lang m ms t,
     item_type (item event) = "message" /\ resolve (reaction event) = Some lang /\
     w_replies w ch ts = ApiOk (Some (m :: ms)) /\ msg_text m = Some t /\ t <> "" /\
     let r := deepl_answer w (apiUrl cfg) t lang in
     run (onReactionAdded cfg w event) =
     (match deepl_result r with
      | Some x => match w_post w ch (Some ts) x with
                  | ApiOk _ => Resolved tt | ApiError => Rejected end
      | None => Resolved tt
      end,
      ([ConversationsReplies ch ts true; deepl_event (apiUrl cfg) t lang (authorization cfg)]
       ++ deepl_log r ++
       match deepl_result r with
       | Some x => [ChatPostMessage ch (Some ts) x]
       | None => []
       end)%list)).
Proof.
  cbv zeta. unfold run, onReactionAdded.
  destruct (String.eqb_spec (item_type (item event)) "message") as [Hty|];
    [|left; reflexivity].
  destruct (resolve (reaction event)) as [lang|] eqn:Hres; [|left; reflexivity].
  unfold conversations_replies, chat_postMessage, bind, emit, ret, reject.
  destruct (w_replies w (item_channel (item event)) (item_ts (item event)))
    as [[[|m ms]|]|] eqn:Hrep; cbv beta iota.
  - right; left. split; [exact Hty|]. split; [discriminate|].
    right. split; [tauto|reflexivity].
  - destruct (truthy_opt (msg_text m)) eqn:Htx; cbv beta iota.
    + right; right. destruct (msg_text m) as [t|] eqn:Ht; [|discriminate].
      exists lang, m, ms, t. do 4 (split; [first [assumption | reflexivity]|]).
      split; [apply truthy_eq; exact Htx|].
      rewrite runDeepL_value_eq.
      destruct (deepl_result (deepl_answer w (apiUrl cfg) t lang)) as [x|] eqn:Hx;
        cbv beta iota.
      * replace (truthy_opt (Some x)) with true
          by (symmetry; exact (deepl_result_truthy _ _ Hx)).
        destruct (w_post w _ _ _) as [[]|]; simpl; try rewrite <- !app_assoc; reflexivity.
      * simpl. rewrite app_nil_r. reflexivity.
    + right; left. split; [exact Hty|]. split; [discriminate|].
      right. split; [right; right; exists m, ms; tauto|reflexivity].
  - right; left. split; [exact Hty|]. split; [discriminate|].
    right. split; [tauto|reflexivity].
  - right; left. split; [exact Hty|]. split; [discriminate|].
    left. split; reflexivity.
Qed.

(** Every run of the modal handler acknowledges, and either stops there
    or calls DeepL once on the two inputs and sends what DeepL returned. *)
Lemma onDeeplModal_run (cfg : Config) (w : World) (sub : ViewSubmission) :
  run (onDeeplModal cfg w sub) = (Resolved tt, [Ack]) \/
  (exists text lang,
     text_value sub = Some text /\ lang_value sub = Some lang /\
     text <> "" /\ lang <> "" /\
     let r := w_deepl w (apiUrl cfg) text lang in
     run (onDeeplModal cfg w sub) =
     (match deepl_result r with
      | Some x => match w_post w (user_id sub) None (dm_text text lang x) with
                  | ApiOk _ => Resolved tt | ApiError => Rejected end
      | None => Resolved tt
      end,
      ([Ack; DeepLPost (apiUrl cfg) [text] lang (authorization cfg)]
       ++ deepl_log r ++
       match deepl_result r with
       | Some x => [ChatPostMessage (user_id sub) None (dm_text text lang x)]
       | None => []
       end)%list)).
Proof.
  cbv zeta. unfold run, onDeeplModal, ack.
  unfold chat_postMessage, bind, emit, ret, reject. cbv beta iota.
  destruct (text_value sub) as [text|], (lang_value sub) as [lang|];
    try (left; reflexivity).
  destruct (truthy text) eqn:Ht, (truthy lang) eqn:Hl; cbn [andb];
    try (left; reflexivity).
  right. exists text, lang.
  do 2 (split; [reflexivity|]).
  split; [apply truthy_eq; exact Ht|]. split; [apply truthy_eq; exact Hl|].
  rewrite runDeepL_eq.
  destruct (deepl_result (w_deepl w (apiUrl cfg) text lang)) as [x|] eqn:Hx;
    cbv beta iota.
  - replace (truthy x) with true
      by (symmetry; exact (deepl_result_truthy _ _ Hx)).
    destruct (w_post w _ _ _) as [[]|]; simpl; reflexivity.
  - simpl. rewrite app_nil_r. reflexivity.
Qed.

Lemma deepl_posts_app (t1 t2 : list Event) :
  deepl_posts (t1 ++ t2) = (deepl_posts t1 ++ deepl_posts t2)%list.
Proof. unfold deepl_posts. apply filter_app. Qed.

Lemma deepl_posts_log (r : HttpReply) : deepl_posts (deepl_log r) = [].
Proof.
  destruct r as [|status data]; simpl; [reflexivity|].
  destruct ((200 <=? status)%Z && (status <? 300)%Z); reflexivity.
Qed.

(** On a message with text whose reaction resolves, the handler sends
    exactly one DeepL request, for the value the reaction resolves to. *)
Lemma onReactionAdded_deepl_posts (cfg : Config) (w : World) (event : ReactionEvent)
  (lang : JsValue) (m : Message) (ms : list Message) (t : string) :
  item_type (item event) = "message" ->
  resolve (reaction event) = Some lang ->
  w_replies w (item_channel (item event)) (item_ts (item event)) = ApiOk (Some (m :: ms)) ->
  msg_text m = Some t -> t <> "" ->
  deepl_posts (snd (run (onReactionAdded cfg w event))) =
  [deepl_event (apiUrl cfg) t lang (authorization cfg)].
Proof.
  intros Hty Hres Hrep Htext Ht.
  unfold run, onReactionAdded. rewrite Hty, Hres, String.eqb_refl.
  unfold conversations_replies, chat_postMessage, bind, emit, ret, reject.
  rewrite Hrep. cbv beta iota. rewrite Htext.
  replace (truthy_opt (Some t)) with true by (symmetry; exact (truthy_neq t Ht)).
  rewrite runDeepL_value_eq.
  destruct (deepl_result (deepl_answer w (apiUrl cfg) t lang)) as [x|] eqn:Hx;
    cbv beta iota.
  - replace (truthy_opt (Some x)) with true
      by (symmetry; exact (deepl_result_truthy _ _ Hx)).
    destruct (w_post w _ _ _); cbn [snd];
      rewrite !deepl_posts_app, deepl_posts_log; destruct lang; reflexivity.
  - change (truthy_opt None) with false. cbv beta iota. cbn [snd].
    rewrite !deepl_posts_app, deepl_posts_log. destruct lang; reflexivity.
Qed.

(** A reaction named after a member of [Object.prototype] resolves to
    that member. *)
Lemma resolve_prototype_member (name : string) :
  In name object_prototype_members ->
  resolve name =
  Some (if String.eqb name "__proto__" then JsObjectPrototype else JsFunction name).
Proof.
  intros Hin.
  repeat (destruct Hin as [<-|Hin]; [vm_compute; reflexivity|]).
  contradiction.
Qed.

Lemma read_submission_user (values : StateValues) (user : string)
  (sub : ViewSubmission) :
  read_submission values user = Some sub -> user_id sub = user.
Proof.
  unfold read_submission.
  destruct (assoc "text-block" values) as [tb|], (assoc "lang-block" values) as [lb|];
    try discriminate.
  destruct (assoc "text" tb), (assoc "lang" lb); try discriminate.
  intros H. injection H as <-. reflexivity.
Qed.

Lemma In_deepl_log (e : Event) (r : HttpReply) :
  In e (deepl_log r) -> e = LogError "Failed to call DeepL API".
Proof.
  destruct r as [|status data]; simpl; [intros [H|[]]; auto|].
  destruct ((200 <=? status)%Z && (status <? 300)%Z); simpl; [tauto|].
  intros [H|[]]; auto.
Qed.

Lemma z2xx_true (status : Z) :
  (200 <=? status)%Z && (status <? 300)%Z = true <-> (200 <= status < 300)%Z.
Proof.
  rewrite andb_true_iff, Z.leb_le, Z.ltb_lt. reflexivity.
Qed.

(* ------------------------------------------------------------------ *)
(** ** Further properties of [runDeepL] *)

(** [runDeepL] sends exactly one request, to the Free endpoint exactly
    when [DEEPL_FREE_API_PLAN] is ["1"] (the Pro endpoint otherwise, also
    when unset), with the text as a one-element list and the target
    language as given; afterwards it records at most one error log. *)
Theorem runDeepL_single_request (cfg : Config) (w : World)
  (text lang : string) (t0 : list Event) :
  (exists logs,
     snd (runDeepL cfg w text lang t0) =
     (t0 ++ DeepLPost (apiUrl cfg) [text] lang (authorization cfg) :: logs)%list /\
     (logs = [] \/ logs = [LogError "Failed to call DeepL API"])) /\
  ((apiUrl cfg = free_api_url /\ DEEPL_FREE_API_PLAN cfg = Some "1") \/
   (apiUrl cfg = pro_api_url /\ DEEPL_FREE_API_PLAN cfg <> Some "1")).
Proof.
  split.
  - exists (deepl_log (w_deepl w (apiUrl cfg) text lang)).
    rewrite runDeepL_eq. split; [reflexivity|].
    destruct (w_deepl w (apiUrl cfg) text lang) as [|status data]; simpl; [tauto|].
    destruct ((200 <=? status)%Z && (status <? 300)%Z); tauto.
  - unfold apiUrl, isFreePlan.
    destruct (DEEPL_FREE_API_PLAN cfg) as [v|].
    + destruct (String.eqb_spec v "1") as [->|Hv]; [tauto|].
      right. split; [reflexivity|]. intros H. injection H as ->. contradiction.
    + right. split; [reflexivity|discriminate].
Qed.

(** [runDeepL] logs an error exactly when axios rejects (no response, or
    a status outside [200, 300)); a 2xx answer whose [data] is falsy or
    has no or an empty [translations] gives [null] after the one request,
    without a log.  Both hold whatever the target value. *)
Theorem runDeepL_logs_iff_axios_rejects (cfg : Config) (w : World)
  (text : string) (lang : JsValue) :
  (In (LogError "Failed to call DeepL API") (snd (run (runDeepL cfg w text lang))) <->
   (deepl_answer w (apiUrl cfg) text lang = NetworkError \/
    exists status data, deepl_answer w (apiUrl cfg) text lang = HttpResponse status data /\
                        ~ (200 <= status < 300)%Z)) /\
  (forall status data,
     deepl_answer w (apiUrl cfg) text lang = HttpResponse status data ->
     (200 <= status < 300)%Z ->
     data = DataFalsy \/ data = DataObj None \/ data = DataObj (Some []) ->
     run (runDeepL cfg w text lang) =
     (Resolved None, [deepl_event (apiUrl cfg) text lang (authorization cfg)])).
Proof.
  unfold run. rewrite runDeepL_value_eq. split.
  - destruct (deepl_answer w (apiUrl cfg) text lang) as [|status data]; simpl.
    + split; [auto|intros _; right; left; reflexivity].
    + destruct ((200 <=? status)%Z && (status <? 300)%Z) eqn:E; simpl.
      * split.
        -- intros [H|[]]. destruct lang; discriminate H.
        -- intros [H|[st [d [H1 H2]]]]; [discriminate|].
           injection H1 as <- <-. apply z2xx_true in E. contradiction.
      * split; [intros _|intros _; right; left; reflexivity].
        right. exists status, data. split; [reflexivity|].
        intros Hs. apply z2xx_true in Hs. congruence.
  - intros status data Hw Hs Hd. rewrite Hw.
    unfold deepl_result, deepl_log. rewrite (proj2 (z2xx_true status) Hs).
    destruct Hd as [ -> | [ -> | -> ] ]; reflexivity.
Qed.

Lemma runDeepL_logs_iff_axios_rejects_witness :
  run (runDeepL sample_config failing_world "Hello" "FR") =
  (Resolved None, [DeepLPost (apiUrl sample_config) ["Hello"] "FR"
                             (authorization sample_config)]).
Proof.
  apply (proj2 (runDeepL_logs_iff_axios_rejects sample_config failing_world "Hello" "FR")
           200%Z (DataObj (Some [])));
    [reflexivity | lia | right; right; reflexivity].
Defined.

(** [runDeepL] never rejects; it resolves with a string exactly when the
    answer is a 2xx with a non-empty [translations] list, and that string
    is the first translation followed by the version marker. *)
Theorem runDeepL_result_iff (cfg : Config) (w : World)
  (text lang : string) (t0 : list Event) (x : string) :
  fst (runDeepL cfg w text lang t0) <> Rejected /\
  (fst (runDeepL cfg w text lang t0) = Resolved (Some x) <->
   exists status tr trs,
     w_deepl w (apiUrl cfg) text lang = HttpResponse status (DataObj (Some (tr :: trs))) /\
     (200 <= status < 300)%Z /\ x = (tr_text tr ++ ver_marker)%string).
Proof.
  rewrite runDeepL_eq. simpl fst. split; [discriminate|].
  destruct (w_deepl w (apiUrl cfg) text lang) as [|status data]; simpl.
  - split; [discriminate|]. intros [st [tr [trs [H _]]]]. discriminate.
  - destruct ((200 <=? status)%Z && (status <? 300)%Z) eqn:E.
    + apply z2xx_true in E.
      destruct data as [|[[|tr trs]|]]; split;
        try discriminate;
        try (intros [st [tr' [trs' [H _]]]]; discriminate).
      * intros H. injection H as <-. exists status, tr, trs. auto.
      * intros [st [tr' [trs' [H [_ ->]]]]]. injection H as _ <- _. reflexivity.
    + split; [discriminate|].
      intros [st [tr [trs [H [Hs _]]]]]. injection H as <- _.
      apply z2xx_true in Hs. congruence.
Qed.

(* ------------------------------------------------------------------ *)
(** ** Further properties of the [reaction_added] handler *)

(** The handler posts at most one message, and only into the reacted-to
    item's channel, threaded under the item's timestamp. *)
Theorem reaction_posts_at_most_one_threaded (cfg : Config) (w : World)
  (event : ReactionEvent) :
  posts (snd (run (onReactionAdded cfg w event))) = [] \/
  exists x, posts (snd (run (onReactionAdded cfg w event))) =
            [ChatPostMessage (item_channel (item event)) (Some (item_ts (item event))) x].
Proof.
  destruct (onReactionAdded_run cfg w event)
    as [H|[[_ [_ [[_ H]|[_ H]]]]|[lang [m [ms [t [_ [_ [_ [_ [_ H]]]]]]]]]]];
    rewrite H; [left; reflexivity|left; reflexivity|left; reflexivity|].
  cbn [snd]. rewrite !posts_app, posts_deepl_log.
  destruct (deepl_result _); [right; eexists|left]; destruct lang; reflexivity.
Qed.

(** The handler's first effect, if any, is [conversations.replies] on the
    item's channel and timestamp with [inclusive: true]; it sends at most
    one DeepL request, which carries the text of the first fetched
    message and the value the reaction resolves to: [DeepLPost] with the
    language code for a table entry, [DeepLPostJson] for an inherited
    member of [Object.prototype]. *)
Theorem reaction_fetch_then_translate (cfg : Config) (w : World)
  (event : ReactionEvent) :
  let tr := snd (run (onReactionAdded cfg w event)) in
  (tr = [] \/
   exists rest, tr = ConversationsReplies (item_channel (item event))
                                          (item_ts (item event)) true :: rest) /\
  (deepl_posts tr = [] \/
   exists lang m ms t,
     resolve (reaction event) = Some lang /\
     w_replies w (item_channel (item event)) (item_ts (item event)) =
       ApiOk (Some (m :: ms)) /\
     msg_text m = Some t /\
     deepl_posts tr = [deepl_event (apiUrl cfg) t lang (authorization cfg)]).
Proof.
  cbv zeta.
  destruct (onReactionAdded_run cfg w event)
    as [H|[[_ [_ [[_ H]|[_ H]]]]|[lang [m [ms [t [_ [Hres [Hrep [Ht [_ H]]]]]]]]]]];
    rewrite H; cbn [snd].
  - split; left; reflexivity.
  - split; [right; eexists; reflexivity|left; reflexivity].
  - split; [right; eexists; reflexivity|left; reflexivity].
  - split; [right; eexists; reflexivity|].
    right. exists lang, m, ms, t. do 3 (split; [assumption|]).
    rewrite !deepl_posts_app, deepl_posts_log.
    destruct (deepl_result _); destruct lang; reflexivity.
Qed.

(** When the reaction resolves: if [conversations.replies] fails, the
    handler rejects right after that call; if it yields no message, or a
    first message without text, the handler stops after that call. *)
Theorem reaction_fetch_edges (cfg : Config) (w : World)
  (event : ReactionEvent) (lang : JsValue) :
  item_type (item event) = "message" ->
  resolve (reaction event) = Some lang ->
  let ch := item_channel (item event) in
  let ts := item_ts (item event) in
  (w_replies w ch ts = ApiError ->
   run (onReactionAdded cfg w event) = (Rejected, [ConversationsReplies ch ts true])) /\
  (w_replies w ch ts = ApiOk None \/ w_replies w ch ts = ApiOk (Some []) \/
   (exists m ms, w_replies w ch ts = ApiOk (Some (m :: ms)) /\
                 (msg_text m = None \/ msg_text m = Some "")) ->
   run (onReactionAdded cfg w event) = (Resolved tt, [ConversationsReplies ch ts true])).
Proof.
  intros Hty Hres. cbv zeta.
  unfold run, onReactionAdded. rewrite Hty, String.eqb_refl, Hres.
  unfold conversations_replies, bind, emit, ret, reject.
  split.
  - intros H. rewrite H. reflexivity.
  - intros [H|[H|[m [ms [H [Ht|Ht]]]]]]; rewrite H; cbv beta iota;
      try reflexivity; rewrite Ht; reflexivity.
Qed.

Lemma reaction_fetch_edges_witness :
  run (onReactionAdded sample_config
         (mkWorld (fun _ _ => ApiOk (Some [mkMessage None]))
                  (w_deepl bonjour_world) (w_deepl_json bonjour_world)
                  (w_post bonjour_world))
         jp_event) =
  (Resolved tt, [ConversationsReplies "C01" "1700000000.000100" true]).
Proof.
  apply (reaction_fetch_edges _ _ jp_event "JA" eq_refl eq_refl).
  right; right. exists (mkMessage None), []. split; [reflexivity|left; reflexivity].
Defined.

(** The handler rejects only when a Slack call fails: the
    [conversations.replies] call, or the [chat.postMessage] it made;
    a DeepL failure never makes it reject. *)
Theorem reaction_rejects_only_on_slack_error (cfg : Config) (w : World)
  (event : ReactionEvent) :
  fst (run (onReactionAdded cfg w event)) = Rejected ->
  w_replies w (item_channel (item event)) (item_ts (item event)) = ApiError \/
  exists x, In (ChatPostMessage (item_channel (item event)) (Some (item_ts (item event))) x)
               (snd (run (onReactionAdded cfg w event))) /\
            w_post w (item_channel (item event)) (Some (item_ts (item event))) x = ApiError.
Proof.
  destruct (onReactionAdded_run cfg w event)
    as [H|[[_ [_ [[Hr H]|[_ H]]]]|[lang [m [ms [t [_ [_ [_ [_ [_ H]]]]]]]]]]];
    rewrite H; cbn [fst snd]; try discriminate; [intros _; left; exact Hr|].
  destruct (deepl_result _) as [x|]; [|discriminate].
  destruct (w_post w _ _ x) eqn:Hp; [discriminate|].
  intros _. right. exists x. split; [|exact Hp].
  apply in_or_app. right. apply in_or_app. right. left. reflexivity.
Qed.

Lemma reaction_rejects_only_on_slack_error_witness :
  fst (run (onReactionAdded sample_config post_failing_world jp_event)) = Rejected /\
  exists x, In (ChatPostMessage "C01" (Some "1700000000.000100") x)
               (snd (run (onReactionAdded sample_config post_failing_world jp_event))) /\
            w_post post_failing_world "C01" (Some "1700000000.000100") x = ApiError.
Proof.
  assert (Hr : fst (run (onReactionAdded sample_config post_failing_world jp_event)) = Rejected)
    by (vm_compute; reflexivity).
  split; [exact Hr|].
  destruct (reaction_rejects_only_on_slack_error _ _ _ Hr) as [H|H];
    [vm_compute in H; discriminate H|exact H].
Defined.

(** A reaction named after a member of [Object.prototype] (such as
    [constructor] or [__proto__]) passes the [!lang] check: on a message
    with text the handler sends one DeepL request, whose JSON body has no
    [target_lang] (a function member is dropped by [JSON.stringify]) or,
    for [__proto__], [target_lang: {}]. *)
Theorem reaction_inherited_member_request (cfg : Config) (w : World)
  (event : ReactionEvent) (m : Message) (ms : list Message) (t : string) :
  item_type (item event) = "message" ->
  In (reaction event) object_prototype_members ->
  w_replies w (item_channel (item event)) (item_ts (item event)) = ApiOk (Some (m :: ms)) ->
  msg_text m = Some t -> t <> "" ->
  resolve (reaction event) <> None /\
  deepl_posts (snd (run (onReactionAdded cfg w event))) =
  [DeepLPostJson (apiUrl cfg) [t]
     (if String.eqb (reaction event) "__proto__" then TargetEmptyObject else TargetOmitted)
     (authorization cfg)].
Proof.
  intros Hty Hin Hrep Htext Ht.
  pose proof (resolve_prototype_member _ Hin) as Hres.
  split; [rewrite Hres; discriminate|].
  rewrite (onReactionAdded_deepl_posts cfg w event _ m ms t Hty Hres Hrep Htext Ht).
  destruct (String.eqb (reaction event) "__proto__"); reflexivity.
Qed.

Lemma reaction_inherited_member_request_witness :
  deepl_posts (snd (run (onReactionAdded sample_config bonjour_world constructor_event))) =
  [DeepLPostJson (apiUrl sample_config) ["Hello"] TargetOmitted (authorization sample_config)].
Proof.
  apply (proj2 (reaction_inherited_member_request sample_config bonjour_world
                  constructor_event (mkMessage (Some "Hello")) [] "Hello"
                  eq_refl ltac:(left; reflexivity) eq_refl eq_refl ltac:(discriminate))).
Defined.

(** The reaction names [resolve] lets through: names outside [/QP/i]
    that are either a key of [flagToLangCode] with a non-empty code
    (resolving to that code) or, not being a key, a member of
    [Object.prototype] (resolving to that member). *)
Theorem resolve_cases (name : string) (v : JsValue) :
  resolve name = Some v ->
  matchQP name = false /\
  ((exists s, v = JsString s /\ In (name, s) flagToLangCode /\ s <> "") \/
   (In name object_prototype_members /\ ~ In name (keys flagToLangCode) /\
    v = (if String.eqb name "__proto__" then JsObjectPrototype else JsFunction name))).
Proof.
  unfold resolve, resolve_in. cbv zeta.
  destruct (matchQP name); [discriminate|]. intros H. split; [reflexivity|].
  unfold lookup in H.
  destruct (own_lookup name flagToLangCode) as [s|] eqn:E.
  - left. cbn [truthy_value] in H.
    destruct (truthy s) eqn:T; [|discriminate]. injection H as <-.
    exists s. split; [reflexivity|].
    split; [exact (own_lookup_Some_In _ _ _ E)|exact (truthy_eq _ T)].
  - right. pose proof (own_lookup_None_not_In _ _ E) as Hk.
    destruct (String.eqb_spec name "__proto__") as [->|Hne].
    + injection H as <-. split; [right; left; reflexivity|].
      split; [exact Hk|reflexivity].
    + destruct (is_prototype_member name) eqn:P; [|discriminate].
      injection H as <-. split.
      * unfold is_prototype_member in P.
        apply existsb_exists in P as [m [Hin Heq]].
        apply String.eqb_eq in Heq. subst m. exact Hin.
      * split; [exact Hk|reflexivity].
Qed.

Lemma resolve_cases_witness :
  resolve "constructor" = Some (JsFunction "constructor") /\
  In "constructor" object_prototype_members.
Proof.
  assert (H : resolve "constructor" = Some (JsFunction "constructor"))
    by (vm_compute; reflexivity).
  split; [exact H|].
  destruct (resolve_cases _ _ H) as [_ [[s [Hs _]]|[Hin _]]]; [discriminate Hs|exact Hin].
Defined.

(* ------------------------------------------------------------------ *)
(** ** Further properties of the modal and the shortcut *)

Lemma Ack_not_in_tail (text lang : string) (cfg : Config) (r : HttpReply)
  (post : list Event) :
  (forall e, In e post -> is_post e = true) ->
  ~ In Ack ((DeepLPost (apiUrl cfg) [text] lang (authorization cfg)
             :: deepl_log r) ++ post)%list.
Proof.
  intros Hp Hin. apply in_app_or in Hin as [[H|H]|H]; [discriminate| |].
  - apply In_deepl_log in H. discriminate.
  - apply Hp in H. discriminate.
Qed.

(** The view handler acknowledges the submission first and exactly once
    on every path; when the payload lacks one of the two blocks it rejects
    right after the acknowledgement, without calling DeepL. *)
Theorem modal_ack_first_once (cfg : Config) (w : World)
  (values : StateValues) (user : string) :
  (exists rest, snd (run (onDeeplModalPayload cfg w values user)) = Ack :: rest /\
                ~ In Ack rest) /\
  (read_submission values user = None ->
   run (onDeeplModalPayload cfg w values user) = (Rejected, [Ack])).
Proof.
  unfold onDeeplModalPayload.
  destruct (read_submission values user) as [sub|]; split; try discriminate.
  - destruct (onDeeplModal_run cfg w sub)
      as [H|[text [lang [_ [_ [_ [_ H]]]]]]]; rewrite H; cbn [snd].
    + exists []. split; [reflexivity|intros []].
    + eexists. split; [reflexivity|].
      apply Ack_not_in_tail.
      destruct (deepl_result _); simpl; intros e He;
        [destruct He as [<-|[]]; reflexivity|destruct He].
  - exists []. split; [reflexivity|intros []].
  - intros _. reflexivity.
Qed.

Lemma modal_ack_first_once_witness :
  run (onDeeplModalPayload sample_config bonjour_world [] "U01") = (Rejected, [Ack]).
Proof. apply (proj2 (modal_ack_first_once _ _ [] "U01")). reflexivity. Defined.

(** With a missing or empty text or language, the modal handler only
    acknowledges: no DeepL call and no message. *)
Theorem modal_missing_input_only_ack (cfg : Config) (w : World)
  (sub : ViewSubmission) :
  text_value sub = None \/ lang_value sub = None \/
  text_value sub = Some "" \/ lang_value sub = Some "" ->
  run (onDeeplModal cfg w sub) = (Resolved tt, [Ack]).
Proof.
  intros Hin.
  destruct (onDeeplModal_run cfg w sub)
    as [H|[text [lang [Ht [Hl [Htn [Hln _]]]]]]]; [exact H|].
  exfalso. rewrite Ht, Hl in Hin.
  destruct Hin as [H|[H|[H|H]]]; try discriminate; injection H as H; contradiction.
Qed.

Lemma modal_missing_input_only_ack_witness :
  run (onDeeplModal sample_config bonjour_world
         (mkViewSubmission (Some "") (Some "DE") "U01")) = (Resolved tt, [Ack]).
Proof. apply modal_missing_input_only_ack. right; right; left. reflexivity. Defined.

(** The modal handler sends at most one DeepL request, with the submitted
    text and language code as they are (no table, no ignore pattern), and
    at most one message, unthreaded, to the submitting user. *)
Theorem modal_request_verbatim (cfg : Config) (w : World) (sub : ViewSubmission) :
  let tr := snd (run (onDeeplModal cfg w sub)) in
  (deepl_posts tr = [] \/
   exists text lang, text_value sub = Some text /\ lang_value sub = Some lang /\
     deepl_posts tr = [DeepLPost (apiUrl cfg) [text] lang (authorization cfg)]) /\
  (posts tr = [] \/ exists x, posts tr = [ChatPostMessage (user_id sub) None x]).
Proof.
  cbv zeta.
  destruct (onDeeplModal_run cfg w sub)
    as [H|[text [lang [Ht [Hl [_ [_ H]]]]]]]; rewrite H; cbn [snd].
  - split; left; reflexivity.
  - rewrite !deepl_posts_app, !posts_app, deepl_posts_log, posts_deepl_log.
    split.
    + right. exists text, lang. split; [exact Ht|]. split; [exact Hl|].
      destruct (deepl_result _); reflexivity.
    + destruct (deepl_result _); [right; eexists|left]; reflexivity.
Qed.

(** The view handler rejects only when the payload lacks one of the two
    input blocks (the read after [ack()] throws) or when its
    [chat.postMessage] to the submitting user fails. *)
Theorem modal_rejects_only_on_post_error (cfg : Config) (w : World)
  (values : StateValues) (user : string) :
  fst (run (onDeeplModalPayload cfg w values user)) = Rejected ->
  read_submission values user = None \/
  exists x, In (ChatPostMessage user None x)
               (snd (run (onDeeplModalPayload cfg w values user))) /\
            w_post w user None x = ApiError.
Proof.
  unfold onDeeplModalPayload.
  destruct (read_submission values user) as [sub|] eqn:Hread; [|left; reflexivity].
  rewrite <- (read_submission_user _ _ _ Hread). right.
  revert H.
  destruct (onDeeplModal_run cfg w sub)
    as [H|[text [lang [_ [_ [_ [_ H]]]]]]]; rewrite H; cbn [fst snd];
    [discriminate|].
  destruct (deepl_result _) as [x|]; [|discriminate].
  destruct (w_post w _ _ _) eqn:Hp; [discriminate|].
  intros _. eexists. split; [|exact Hp].
  apply in_or_app. right. apply in_or_app. right. left. reflexivity.
Qed.

Lemma modal_rejects_only_on_post_error_witness :
  fst (run (onDeeplModalPayload sample_config post_failing_world
              (state_of_view deepl_modal_view [Some "Hi"; Some "DE"]) "U01")) = Rejected /\
  exists x, In (ChatPostMessage "U01" None x)
               (snd (run (onDeeplModalPayload sample_config post_failing_world
                            (state_of_view deepl_modal_view [Some "Hi"; Some "DE"]) "U01"))) /\
            w_post post_failing_world "U01" None x = ApiError.
Proof.
  assert (Hr : fst (run (onDeeplModalPayload sample_config post_failing_world
                           (state_of_view deepl_modal_view [Some "Hi"; Some "DE"]) "U01"))
               = Rejected)
    by (vm_compute; reflexivity).
  split; [exact Hr|].
  destruct (modal_rejects_only_on_post_error _ _ _ _ Hr) as [H|H];
    [vm_compute in H; discriminate H|exact H].
Defined.

(** The shortcut acknowledges and opens one modal whose [callback_id] is
    the one the view handler is registered for; whatever values are
    entered into its two inputs, the view handler reads them back from
    [text-block]/[text] and [lang-block]/[lang] and runs on exactly them. *)
Theorem shortcut_modal_roundtrip (views_open : string -> View -> ApiResult unit)
  (trigger_id : string) (cfg : Config) (w : World)
  (text lang : option string) (user : string) :
  snd (onShortcut views_open trigger_id) = [ShortcutAck; ViewsOpen trigger_id deepl_modal_view] /\
  callback_id deepl_modal_view = "deepl-modal" /\
  read_submission (state_of_view deepl_modal_view [text; lang]) user =
    Some (mkViewSubmission text lang user) /\
  onDeeplModalPayload cfg w (state_of_view deepl_modal_view [text; lang]) user =
    onDeeplModal cfg w (mkViewSubmission text lang user).
Proof.
  split; [unfold onShortcut; destruct (views_open _ _); reflexivity|].
  split; [reflexivity|]. split; reflexivity.
Qed.
